(** * ic3-data: [restructure_pulsemap] of [ic3_data_ext/ext_boost.cpp]

    The extension function takes a Python object, extracts a reference to
    the wrapped [I3RecoPulseSeriesMap] from it, and builds two Python lists
    and two Python dicts on the interpreter heap.  The embedding keeps that
    shape: a heap of Python objects, an error-and-state monad over it, the
    Boost.Python operations the function calls, and the two loops as they
    are written (the inner one with its [int] counter). *)

From Stdlib Require Import ZArith Lia Floats.PrimFloat.
From stdpp Require Import base option list.

Open Scope Z_scope.

(** ** Machine integers of the inner loop *)

(** [int] is 32 bits wide on the platforms the extension is built for. *)
Definition INT_MAX : Z := 2 ^ 31 - 1.

(** [i++] on an [int]: the two's-complement result.  (An overflow is
    undefined in C++; no series of at most [INT_MAX] pulses reaches it.) *)
Definition int_wrap (z : Z) : Z := (z + 2 ^ 31) mod 2 ^ 32 - 2 ^ 31.

(** The conversion of the [int] counter to [size_t] that [i < v.size()] and
    [v.at(i)] perform. *)
Definition size_t_of_int (i : Z) : Z := i mod 2 ^ 64.

Close Scope Z_scope.

(** ** The pulse data model *)

(** Modelled from the spec: [dataclasses/physics/I3RecoPulse.h] is not part
    of the repository; a pulse is an immutable value with a charge and a
    time, read through [GetCharge] and [GetTime].  Python floats are
    binary64, and so is every value here (a binary32 charge widens
    exactly). *)
Record I3RecoPulse : Type := { GetCharge : float; GetTime : float }.

Definition pulse (c t : float) : I3RecoPulse := {| GetCharge := c; GetTime := t |}.

(** [std::vector<I3RecoPulse>] *)
Abbreviation I3RecoPulseSeries := (list I3RecoPulse).

(** Python exceptions the call can end in.  [TypeError] is what
    [boost::python::extract] raises (the spec's InputTypeError);
    [IndexError] is [std::out_of_range] of [vector::at] as Boost.Python
    translates it; [AttributeError] is what a missing field would be (the
    spec's MissingFieldError); [SystemError] stands for an operation
    applied to an object of the wrong kind. *)
Inductive exn : Type := TypeError | IndexError | AttributeError | SystemError.

Inductive result (A : Type) : Type :=
  | Ok (a : A)
  | Raise (e : exn)
  | OutOfFuel.
Arguments Ok {A} a.
Arguments Raise {A} e.
Arguments OutOfFuel {A}.

Section Restructure.

(** The sensor key ([OMKey], from [icetray/OMKey.h], outside the
    repository): an opaque identifier that can be compared. *)
Context {OMKey : Type} `{!EqDecision OMKey}.

(** [I3RecoPulseSeriesMap] is a [std::map<OMKey, I3RecoPulseSeries>]; the
    list holds its entries in iteration order. *)
Definition I3RecoPulseSeriesMap : Type := list (OMKey * I3RecoPulseSeries).

(** ** The Python heap *)

Abbreviation loc := nat.

Inductive PyVal : Type :=
  | PyNone
  | PyInt (z : Z)
  | PyFloat (f : float)
  | PyRef (l : loc).

Inductive PyObj : Type :=
  | PyList (items : list PyVal)
  | PyDict (items : list (OMKey * PyVal))
  | PyPulse (p : I3RecoPulse)
  | PyPulseMap (m : I3RecoPulseSeriesMap).

Abbreviation heap := (list PyObj).

(** ** Insertion-ordered dictionaries *)

(** [d[k] = v]: an existing key keeps its place and takes the new value, a
    new key goes to the end. *)
Fixpoint dict_set {V : Type} (k : OMKey) (v : V) (items : list (OMKey * V))
  : list (OMKey * V) :=
  match items with
  | [] => [(k, v)]
  | kv :: rest =>
      if decide (kv.1 = k) then (kv.1, v) :: rest
      else kv :: dict_set k v rest
  end.

(** [d[k]] *)
Fixpoint dict_get {V : Type} (k : OMKey) (items : list (OMKey * V)) : option V :=
  match items with
  | [] => None
  | kv :: rest => if decide (kv.1 = k) then Some kv.2 else dict_get k rest
  end.

Definition dict_keys {V : Type} (items : list (OMKey * V)) : list OMKey :=
  map fst items.

(** ** The monad: a heap threaded through, an exception ends the run *)

Definition M (A : Type) : Type := heap → result A * heap.

Definition ret {A : Type} (a : A) : M A := λ h, (Ok a, h).

Definition raise {A : Type} (e : exn) : M A := λ h, (Raise e, h).

Definition bind {A B : Type} (c : M A) (k : A → M B) : M B :=
  λ h, match c h with
       | (Ok a, h') => k a h'
       | (Raise e, h') => (Raise e, h')
       | (OutOfFuel, h') => (OutOfFuel, h')
       end.

Notation "x <- c ;; k" := (bind c (λ x, k))
  (at level 100, c at next level, right associativity).
Notation "c ;;; k" := (bind c (λ _, k))
  (at level 100, right associativity).

(** ** Boost.Python operations *)

(** [boost::python::list x;] and [boost::python::dict x;] *)
Definition new_object (o : PyObj) : M loc := λ h, (Ok (length h), h ++ [o]).

(** [x.append(v)] *)
Definition list_append (l : loc) (v : PyVal) : M () := λ h,
  match h !! l with
  | Some (PyList items) => (Ok (), <[l := PyList (items ++ [v])]> h)
  | _ => (Raise SystemError, h)
  end.

(** [x.extend(y)] *)
Definition list_extend (l src : loc) : M () := λ h,
  match h !! l, h !! src with
  | Some (PyList items), Some (PyList more) =>
      (Ok (), <[l := PyList (items ++ more)]> h)
  | _, _ => (Raise SystemError, h)
  end.

(** [d[k] = v] *)
Definition dict_setitem (d : loc) (k : OMKey) (v : PyVal) : M () := λ h,
  match h !! d with
  | Some (PyDict items) => (Ok (), <[d := PyDict (dict_set k v items)]> h)
  | _ => (Raise SystemError, h)
  end.

(** [boost::python::extract<I3RecoPulseSeriesMap&>(obj)]: the object must
    wrap an [I3RecoPulseSeriesMap]; anything else is a [TypeError]. *)
Definition extract_pulse_map (obj : PyVal) : M I3RecoPulseSeriesMap := λ h,
  match obj with
  | PyRef l =>
      match h !! l with
      | Some (PyPulseMap m) => (Ok m, h)
      | _ => (Raise TypeError, h)
      end
  | _ => (Raise TypeError, h)
  end.

(** [v.at(n)] *)
Definition vector_at (v : I3RecoPulseSeries) (n : Z) : M I3RecoPulse :=
  match v !! Z.to_nat n with
  | Some p => ret p
  | None => raise IndexError
  end.

(** ** The function *)

(** [for (int i=0; i < dom_pulses.second.size(); i++) { ... }], one unit of
    fuel per test of the loop condition. *)
Fixpoint pulse_loop (fuel : nat) (pulses : I3RecoPulseSeries) (i : Z)
    (dom_charges dom_times : loc) : M () :=
  match fuel with
  | O => λ h, (OutOfFuel, h)
  | S fuel' =>
      if (size_t_of_int i <? Z.of_nat (length pulses))%Z then
        p <- vector_at pulses (size_t_of_int i) ;;
        list_append dom_charges (PyFloat (GetCharge p)) ;;;
        q <- vector_at pulses (size_t_of_int i) ;;
        list_append dom_times (PyFloat (GetTime q)) ;;;
        pulse_loop fuel' pulses (int_wrap (i + 1)) dom_charges dom_times
      else ret ()
  end.

(** [for (auto const& dom_pulses : pulse_map) { ... }] *)
Fixpoint map_loop (entries : I3RecoPulseSeriesMap)
    (charges times dom_times_dict dom_charges_dict : loc) : M () :=
  match entries with
  | [] => ret ()
  | dom_pulses :: rest =>
      dom_charges <- new_object (PyList []) ;;
      dom_times <- new_object (PyList []) ;;
      pulse_loop (S (length dom_pulses.2)) dom_pulses.2 0 dom_charges dom_times ;;;
      dict_setitem dom_times_dict dom_pulses.1 (PyRef dom_times) ;;;
      dict_setitem dom_charges_dict dom_pulses.1 (PyRef dom_charges) ;;;
      list_extend charges dom_charges ;;;
      list_extend times dom_times ;;;
      map_loop rest charges times dom_times_dict dom_charges_dict
  end.

(** The returned tuple, in the order of [make_tuple]. *)
Definition PyTuple4 : Type := PyVal * PyVal * PyVal * PyVal.

(** [restructure_pulsemap<T>]; the body does not mention [T].  The
    reference that the extraction yields is read once: no statement below
    writes to the map. *)
Definition restructure_pulsemap (pulse_map_obj : PyVal) : M PyTuple4 :=
  pulse_map <- extract_pulse_map pulse_map_obj ;;
  charges <- new_object (PyList []) ;;
  times <- new_object (PyList []) ;;
  dom_times_dict <- new_object (PyDict []) ;;
  dom_charges_dict <- new_object (PyDict []) ;;
  map_loop pulse_map charges times dom_times_dict dom_charges_dict ;;;
  ret (PyRef charges, PyRef times, PyRef dom_times_dict, PyRef dom_charges_dict).

(** ** Reading the result back from the heap *)

Definition as_float (v : PyVal) : option float :=
  match v with PyFloat f => Some f | _ => None end.

(** The floats of the list object [v] refers to. *)
Definition read_list (h : heap) (v : PyVal) : option (list float) :=
  match v with
  | PyRef l =>
      match h !! l with
      | Some (PyList items) => mapM as_float items
      | _ => None
      end
  | _ => None
  end.

(** The items of the dict object [v] refers to, each value read as a list
    of floats. *)
Definition read_dict (h : heap) (v : PyVal) : option (list (OMKey * list float)) :=
  match v with
  | PyRef l =>
      match h !! l with
      | Some (PyDict items) =>
          mapM (λ kv, xs ← read_list h kv.2; Some (kv.1, xs)) items
      | _ => None
      end
  | _ => None
  end.

(** The four parts of the returned tuple, by content. *)
Record OutputBundle : Type := {
  FlatCharges : list float;
  FlatTimes : list float;
  PerKeyTimes : list (OMKey * list float);
  PerKeyCharges : list (OMKey * list float)
}.

Definition read_bundle (h : heap) (out : PyTuple4) : option OutputBundle :=
  let '(c, t, dt, dc) := out in
  fc ← read_list h c;
  ft ← read_list h t;
  pt ← read_dict h dt;
  pc ← read_dict h dc;
  Some {| FlatCharges := fc; FlatTimes := ft;
          PerKeyTimes := pt; PerKeyCharges := pc |}.

(** The call on heap [h] with argument [obj] returns a tuple whose content
    is [b]. *)
Definition returns (h : heap) (obj : PyVal) (b : OutputBundle) : Prop :=
  ∃ out h', restructure_pulsemap obj h = (Ok out, h') ∧ read_bundle h' out = Some b.

(** The argument wraps a pulse map. *)
Definition is_pulse_map (h : heap) (obj : PyVal) : bool :=
  match obj with
  | PyRef l => match h !! l with Some (PyPulseMap _) => true | _ => false end
  | _ => false
  end.

(** ** What the loops compute, as list functions *)

(** One field of every pulse, all keys in iteration order. *)
Definition flat (f : I3RecoPulse → float) (m : I3RecoPulseSeriesMap) : list float :=
  concat (map (λ kv, map f kv.2) m).

(** The dictionary the assignments [d[key] = ...] build, one per entry in
    iteration order. *)
Definition dict_of (f : I3RecoPulse → float) (m : I3RecoPulseSeriesMap)
  : list (OMKey * list float) :=
  fold_left (λ d kv, dict_set kv.1 (map f kv.2) d) m [].

(** One field of every pulse, key by key. *)
Definition per_key (f : I3RecoPulse → float) (m : I3RecoPulseSeriesMap)
  : list (OMKey * list float) :=
  map (λ kv, (kv.1, map f kv.2)) m.

(** The content of the tuple the call returns for the map [m]. *)
Definition bundle_of (m : I3RecoPulseSeriesMap) : OutputBundle :=
  {| FlatCharges := flat GetCharge m; FlatTimes := flat GetTime m;
     PerKeyTimes := dict_of GetTime m; PerKeyCharges := dict_of GetCharge m |}.

(** ** Arguments that are not pulse maps *)

(** [v] refers to a wrapped pulse, an object with a charge and a time. *)
Definition is_pulse (h : heap) (v : PyVal) : bool :=
  match v with
  | PyRef l => match h !! l with Some (PyPulse _) => true | _ => false end
  | _ => false
  end.

(** [obj] is a Python dict one of whose values is a list with an element
    that is not a pulse: an element without a charge or a time field.  The
    elements of a wrapped [I3RecoPulseSeriesMap] are [I3RecoPulse] values,
    which all have both. *)
Definition has_fieldless_element (h : heap) (obj : PyVal) : bool :=
  match obj with
  | PyRef l =>
      match h !! l with
      | Some (PyDict items) =>
          existsb (λ kv,
            match kv.2 with
            | PyRef s =>
                match h !! s with
                | Some (PyList xs) => existsb (λ x, negb (is_pulse h x)) xs
                | _ => false
                end
            | _ => false
            end) items
      | _ => false
      end
  | _ => false
  end.

(** ** Valid inputs *)

(** The counter of the inner loop never overflows: every series has at most
    [INT_MAX] pulses. *)
Definition sizes_fit_int (m : I3RecoPulseSeriesMap) : Prop :=
  Forall (λ kv, (Z.of_nat (length kv.2) ≤ INT_MAX)%Z) m.

(** A valid input: the keys are distinct, as in every [std::map], and the
    series fit the counter. *)
Definition valid_pulse_map (m : I3RecoPulseSeriesMap) : Prop :=
  NoDup (dict_keys m) ∧ sizes_fit_int m.

(** ** Invariants of the loops *)

(** [v] refers to a list object at or above [lo] that holds exactly the
    floats [xs]. *)
Definition holds_floats (h : heap) (lo : nat) (v : PyVal) (xs : list float) : Prop :=
  ∃ r, v = PyRef r ∧ lo ≤ r ∧ h !! r = Some (PyList (map PyFloat xs)).

(** The items of a dict object, read through the heap, are [d]. *)
Definition dict_holds (h : heap) (lo : nat) (items : list (OMKey * PyVal))
    (d : list (OMKey * list float)) : Prop :=
  Forall2 (λ a b, a.1 = b.1 ∧ holds_floats h lo a.2 b.2) items d.

(** What holds of the heap between two rounds of the outer loop: the
    objects that were there before the call are as they were, the two flat
    lists and the two dicts hold what the entries [done] so far give. *)
Record loop_inv (h0 h : heap) (done : I3RecoPulseSeriesMap) : Prop := {
  inv_frame : ∀ l, l < length h0 → h !! l = h0 !! l;
  inv_charges : h !! length h0 = Some (PyList (map PyFloat (flat GetCharge done)));
  inv_times : h !! (length h0 + 1) = Some (PyList (map PyFloat (flat GetTime done)));
  inv_dom_times : ∃ items, h !! (length h0 + 2) = Some (PyDict items) ∧
    dict_holds h (length h0 + 4) items (dict_of GetTime done);
  inv_dom_charges : ∃ items, h !! (length h0 + 3) = Some (PyDict items) ∧
    dict_holds h (length h0 + 4) items (dict_of GetCharge done);
  inv_length : length h0 + 4 ≤ length h
}.

(** [c] leaves the first [n] objects of the heap as they are and removes
    none. *)
Definition keeps {A : Type} (n : nat) (c : M A) : Prop :=
  ∀ h, n ≤ length h → take n (c h).2 = take n h ∧ length h ≤ length (c h).2.

(** ** Example inputs *)

(** {A: [(1.5, 10.0)]} *)
Definition one_pulse_map (A : OMKey) : I3RecoPulseSeriesMap :=
  [(A, [pulse 1.5 10])].

(** {A: [(2.0, 20.0), (3.0, 30.0)], B: [(4.0, 40.0)]} *)
Definition two_key_map (A B : OMKey) : I3RecoPulseSeriesMap :=
  [(A, [pulse 2 20; pulse 3 30]); (B, [pulse 4 40])].

(** {A: []} *)
Definition empty_series_map (A : OMKey) : I3RecoPulseSeriesMap := [(A, [])].

(** A Python dict [{A: [None]}]: shaped like a map of sequences, with an
    element that has neither a charge nor a time. *)
Definition fieldless_heap (A : OMKey) : heap :=
  [PyList [PyNone]; PyDict [(A, PyRef 0)]].

(** ** The objects a call leaves on the heap *)

(** The two list objects one round of the outer loop allocates and fills:
    [dom_charges], then [dom_times]. *)
Definition round_cells (kv : OMKey * I3RecoPulseSeries) : list PyObj :=
  [PyList (map (λ p, PyFloat (GetCharge p)) kv.2);
   PyList (map (λ p, PyFloat (GetTime p)) kv.2)].

(** The items of a dict after the rounds for [entries], when the first of
    them allocates at [next]: each round assigns to its key a reference to
    the object [off] above the round's first allocation ([dom_charges] is
    at 0, [dom_times] at 1). *)
Fixpoint dict_refs (off : nat) (next : loc) (entries : I3RecoPulseSeriesMap)
    (d : list (OMKey * PyVal)) : list (OMKey * PyVal) :=
  match entries with
  | [] => d
  | kv :: rest => dict_refs off (next + 2) rest (dict_set kv.1 (PyRef (next + off)) d)
  end.

(** The same items when no key repeats: one item per entry, in order. *)
Fixpoint refs_from (off : nat) (next : loc) (entries : I3RecoPulseSeriesMap)
  : list (OMKey * PyVal) :=
  match entries with
  | [] => []
  | kv :: rest => (kv.1, PyRef (next + off)) :: refs_from off (next + 2) rest
  end.

(** ** The counter stays in range *)

Lemma size_t_of_int_small (i : Z) :
  (0 ≤ i ≤ INT_MAX)%Z → size_t_of_int i = i.
Proof.
  unfold size_t_of_int, INT_MAX. intros Hi. apply Z.mod_small. lia.
Qed.

Lemma int_wrap_small (i : Z) :
  (0 ≤ i < INT_MAX)%Z → int_wrap (i + 1) = (i + 1)%Z.
Proof.
  unfold int_wrap, INT_MAX. intros Hi.
  rewrite Z.mod_small by lia. lia.
Qed.

(** ** Running the monad *)

Lemma bind_ok {A B : Type} (c : M A) (k : A → M B) (h h' : heap) (a : A) :
  c h = (Ok a, h') → bind c k h = k a h'.
Proof. intros Hc. unfold bind. by rewrite Hc. Qed.

Lemma bind_raise {A B : Type} (c : M A) (k : A → M B) (h h' : heap) (e : exn) :
  c h = (Raise e, h') → bind c k h = (Raise e, h').
Proof. intros Hc. unfold bind. by rewrite Hc. Qed.

Lemma vector_at_run (v : I3RecoPulseSeries) (n : nat) (p : I3RecoPulse) (h : heap) :
  v !! n = Some p → vector_at v (Z.of_nat n) h = (Ok p, h).
Proof.
  intros Hp. unfold vector_at. rewrite Nat2Z.id.
  by destruct (v !! n) as [p'|]; simplify_eq.
Qed.

Lemma list_append_run (h : heap) (l : loc) (v : PyVal) (items : list PyVal) :
  h !! l = Some (PyList items) →
  list_append l v h = (Ok (), <[l := PyList (items ++ [v])]> h).
Proof. intros Hl. unfold list_append. by rewrite Hl. Qed.

Lemma list_extend_run (h : heap) (l src : loc) (items more : list PyVal) :
  h !! l = Some (PyList items) →
  h !! src = Some (PyList more) →
  list_extend l src h = (Ok (), <[l := PyList (items ++ more)]> h).
Proof. intros Hl Hs. unfold list_extend. by rewrite Hl, Hs. Qed.

Lemma dict_setitem_run (h : heap) (d : loc) (k : OMKey) (v : PyVal)
    (items : list (OMKey * PyVal)) :
  h !! d = Some (PyDict items) →
  dict_setitem d k v h = (Ok (), <[d := PyDict (dict_set k v items)]> h).
Proof. intros Hd. unfold dict_setitem. by rewrite Hd. Qed.

Lemma extract_pulse_map_run (h : heap) (l : loc) (m : I3RecoPulseSeriesMap) :
  h !! l = Some (PyPulseMap m) →
  extract_pulse_map (PyRef l) h = (Ok m, h).
Proof. intros Hl. unfold extract_pulse_map. by rewrite Hl. Qed.

Lemma extract_pulse_map_fail (h : heap) (obj : PyVal) :
  is_pulse_map h obj = false →
  extract_pulse_map obj h = (Raise TypeError, h).
Proof.
  unfold is_pulse_map, extract_pulse_map. intros Hno.
  destruct obj as [| | |l]; try done.
  by destruct (h !! l) as [[]|].
Qed.

(** ** The inner loop *)

(** Started at index [i] with enough fuel, the loop appends the charges and
    the times of the pulses from [i] on and touches no other object. *)
Lemma pulse_loop_run (fuel : nat) (pulses : I3RecoPulseSeries) :
  (Z.of_nat (length pulses) ≤ INT_MAX)%Z →
  ∀ (i : nat) (h : heap) (dc dt : loc) (cs ts : list PyVal),
    dc ≠ dt →
    h !! dc = Some (PyList cs) →
    h !! dt = Some (PyList ts) →
    i ≤ length pulses →
    length pulses - i < fuel →
    pulse_loop fuel pulses (Z.of_nat i) dc dt h =
      (Ok (),
       <[dt := PyList (ts ++ map (λ p, PyFloat (GetTime p)) (drop i pulses))]>
         (<[dc := PyList (cs ++ map (λ p, PyFloat (GetCharge p)) (drop i pulses))]> h)).
Proof.
  intros Hfit. induction fuel as [|fuel IH]; intros i h dc dt cs ts Hne Hdc Hdt Hi Hfuel.
  - lia.
  - cbn [pulse_loop].
    rewrite size_t_of_int_small by lia.
    destruct (Z.ltb_spec (Z.of_nat i) (Z.of_nat (length pulses))) as [Hlt|Hge].
    + assert (Hlt' : i < length pulses) by lia.
      destruct (lookup_lt_is_Some_2 pulses i Hlt') as [p Hp].
      rewrite (bind_ok _ _ _ _ _ (vector_at_run _ _ _ _ Hp)).
      rewrite (bind_ok _ _ _ _ _ (list_append_run h dc _ cs Hdc)).
      rewrite (bind_ok _ _ _ _ _ (vector_at_run _ _ _ _ Hp)).
      erewrite bind_ok;
        [ | apply (list_append_run _ dt _ ts); by rewrite list_lookup_insert_ne ].
      rewrite int_wrap_small by lia.
      replace (Z.of_nat i + 1)%Z with (Z.of_nat (S i)) by lia.
      rewrite (IH (S i) _ dc dt (cs ++ [PyFloat (GetCharge p)]) (ts ++ [PyFloat (GetTime p)]));
        [ | done | | | lia | lia ].
      * rewrite (drop_S _ _ _ Hp). cbn [map].
        rewrite <- !(assoc_L (++)). cbn [app].
        rewrite (list_insert_insert_ne _ dc dt) by done.
        by rewrite !list_insert_insert_eq.
      * rewrite list_lookup_insert_ne by done.
        apply list_lookup_insert_eq. by eapply lookup_lt_Some.
      * apply list_lookup_insert_eq. rewrite length_insert. by eapply lookup_lt_Some.
    + assert (i = length pulses) as -> by lia.
      rewrite drop_all. cbn [map]. rewrite !(right_id_L [] (++)).
      unfold ret. f_equal.
      rewrite (list_insert_id _ dc) by done.
      by rewrite (list_insert_id _ dt).
Qed.

(** ** The list functions, one entry more *)

Lemma flat_snoc (f : I3RecoPulse → float) (m : I3RecoPulseSeriesMap)
    (e : OMKey * I3RecoPulseSeries) :
  flat f (m ++ [e]) = flat f m ++ map f e.2.
Proof.
  unfold flat. rewrite map_app, concat_app. cbn.
  by rewrite (right_id_L [] (++)).
Qed.

Lemma dict_of_snoc (f : I3RecoPulse → float) (m : I3RecoPulseSeriesMap)
    (e : OMKey * I3RecoPulseSeries) :
  dict_of f (m ++ [e]) = dict_set e.1 (map f e.2) (dict_of f m).
Proof. unfold dict_of. by rewrite fold_left_app. Qed.

(** ** The heap behind a dictionary *)

Lemma dict_holds_set (h : heap) (lo : nat) (k : OMKey) (v : PyVal) (xs : list float)
    (items : list (OMKey * PyVal)) (d : list (OMKey * list float)) :
  holds_floats h lo v xs →
  dict_holds h lo items d →
  dict_holds h lo (dict_set k v items) (dict_set k xs d).
Proof.
  intros Hv Hd. induction Hd as [|a b items d [Hk Hab] Hd IH]; cbn.
  - by repeat constructor.
  - rewrite <- Hk. destruct (decide (a.1 = k)).
    + by repeat constructor.
    + by repeat constructor.
Qed.

Lemma dict_holds_heap (h h' : heap) (lo : nat) (items : list (OMKey * PyVal))
    (d : list (OMKey * list float)) :
  (∀ r o, lo ≤ r → h !! r = Some o → h' !! r = Some o) →
  dict_holds h lo items d →
  dict_holds h' lo items d.
Proof.
  intros Hsame Hd. eapply Forall2_impl; [exact Hd|].
  intros a b [Hk (r & Hr & Hlo & Hl)]. split; [done|].
  exists r. eauto.
Qed.

Lemma mapM_as_float (xs : list float) : mapM as_float (map PyFloat xs) = Some xs.
Proof. induction xs as [|x xs IH]; [done|]. cbn. by rewrite IH. Qed.

Lemma holds_floats_read (h : heap) (lo : nat) (v : PyVal) (xs : list float) :
  holds_floats h lo v xs → read_list h v = Some xs.
Proof.
  intros (r & -> & _ & Hr). unfold read_list. rewrite Hr. apply mapM_as_float.
Qed.

Lemma dict_holds_read (h : heap) (lo : nat) (l : loc) (items : list (OMKey * PyVal))
    (d : list (OMKey * list float)) :
  h !! l = Some (PyDict items) →
  dict_holds h lo items d →
  read_dict h (PyRef l) = Some d.
Proof.
  intros Hl Hd. unfold read_dict. rewrite Hl. clear Hl.
  induction Hd as [|a b items d [Hk Hab] Hd IH]; [done|].
  cbn. rewrite (holds_floats_read _ _ _ _ Hab). cbn.
  rewrite IH. cbn. destruct b as [kb xb]. cbn in *. by rewrite Hk.
Qed.

(** ** The outer loop *)

Lemma lookup_fresh_old (h : heap) (a b : PyObj) (l : loc) :
  l < length h → ((h ++ [a]) ++ [b]) !! l = h !! l.
Proof.
  intros Hl. rewrite lookup_app_l by (rewrite length_app; lia).
  by rewrite lookup_app_l.
Qed.

Lemma lookup_fresh_0 (h : heap) (a b : PyObj) :
  ((h ++ [a]) ++ [b]) !! length h = Some a.
Proof.
  rewrite lookup_app_l by (rewrite length_app; cbn; lia).
  by apply list_lookup_middle.
Qed.

Lemma lookup_fresh_1 (h : heap) (a b : PyObj) :
  ((h ++ [a]) ++ [b]) !! S (length h) = Some b.
Proof.
  apply list_lookup_middle. rewrite length_app. cbn. lia.
Qed.

(** The two lists a round allocates and fills, and the heap below them. *)
Lemma fresh_lists_spec (h : heap) (cs ts : list PyVal) (h' : heap) :
  h' = <[S (length h) := PyList ts]>
         (<[length h := PyList cs]> ((h ++ [PyList []]) ++ [PyList []])) →
  length h' = length h + 2 ∧
  h' !! length h = Some (PyList cs) ∧
  h' !! S (length h) = Some (PyList ts) ∧
  ∀ l, l < length h → h' !! l = h !! l.
Proof.
  intros ->. repeat split.
  - rewrite !length_insert, !length_app. cbn. lia.
  - rewrite list_lookup_insert_ne by lia.
    apply list_lookup_insert_eq. rewrite !length_app. cbn. lia.
  - apply list_lookup_insert_eq. rewrite length_insert, !length_app. cbn. lia.
  - intros l Hl. rewrite !list_lookup_insert_ne by lia.
    by apply lookup_fresh_old.
Qed.

Lemma map_loop_run (h0 : heap) (entries : I3RecoPulseSeriesMap) :
  sizes_fit_int entries →
  ∀ (done : I3RecoPulseSeriesMap) (h : heap),
    loop_inv h0 h done →
    ∃ h', map_loop entries (length h0) (length h0 + 1) (length h0 + 2) (length h0 + 3) h
            = (Ok (), h') ∧
          loop_inv h0 h' (done ++ entries).
Proof.
  intros Hfit. induction Hfit as [|[k pulses] entries Hp Hfit IH]; intros done h Hinv.
  - exists h. split; [done|]. by rewrite (right_id_L [] (++)).
  - cbn [map_loop fst snd]. cbn [fst snd] in Hp.
    destruct Hinv as [Hframe Hc Ht (dti & Hdt & Hdti) (dci & Hdc & Hdci) Hlen].
    erewrite bind_ok; [|reflexivity].
    erewrite bind_ok; [|reflexivity].
    rewrite length_app. cbn [length]. rewrite Nat.add_1_r.
    erewrite bind_ok;
      [ | apply (pulse_loop_run _ _ Hp 0 _ (length h) (S (length h)) [] []);
          [ lia | apply lookup_fresh_0 | apply lookup_fresh_1 | lia | lia ] ].
    rewrite drop_0. cbn [app].
    match goal with |- ∃ _, _ ?hh = _ ∧ _ => remember hh as h3 eqn:Hh3 end.
    apply fresh_lists_spec in Hh3 as (Hl3 & Hc3 & Ht3 & Hold3).
    erewrite bind_ok;
      [ | apply dict_setitem_run; rewrite Hold3 by lia; exact Hdt ].
    erewrite bind_ok;
      [ | apply dict_setitem_run; rewrite list_lookup_insert_ne by lia;
          rewrite Hold3 by lia; exact Hdc ].
    erewrite bind_ok;
      [ | apply list_extend_run; rewrite !list_lookup_insert_ne by lia;
          [ rewrite Hold3 by lia; exact Hc | exact Hc3 ] ].
    erewrite bind_ok;
      [ | apply list_extend_run; rewrite !list_lookup_insert_ne by lia;
          [ rewrite Hold3 by lia; exact Ht | exact Ht3 ] ].
    match goal with |- ∃ _, _ ?hh = _ ∧ _ => remember hh as h7 eqn:Hh7 end.
    assert (Hold7 : ∀ r o, length h0 + 4 ≤ r → h !! r = Some o → h7 !! r = Some o).
    { intros r o Hr Hro. pose proof (lookup_lt_Some _ _ _ Hro).
      subst h7. rewrite !list_lookup_insert_ne by lia. by rewrite Hold3. }
    assert (Hnew7 : ∀ r o, length h ≤ r → h3 !! r = Some o → h7 !! r = Some o).
    { intros r o Hr Hro. subst h7. by rewrite !list_lookup_insert_ne by lia. }
    destruct (IH (done ++ [(k, pulses)]) h7) as (h' & Hrun & Hinv').
    { split.
      - intros l Hl. subst h7. rewrite !list_lookup_insert_ne by lia.
        rewrite Hold3 by lia. by apply Hframe.
      - subst h7. rewrite list_lookup_insert_ne by lia.
        rewrite list_lookup_insert_eq by (rewrite !length_insert; lia).
        by rewrite flat_snoc, map_app, map_map.
      - subst h7.
        rewrite list_lookup_insert_eq by (rewrite !length_insert; lia).
        by rewrite flat_snoc, map_app, map_map.
      - eexists. split.
        + subst h7. rewrite !list_lookup_insert_ne by lia.
          apply list_lookup_insert_eq. lia.
        + rewrite dict_of_snoc. apply dict_holds_set.
          * exists (S (length h)). split; [done|]. split; [lia|].
            apply Hnew7; [lia|]. by rewrite map_map.
          * by eapply dict_holds_heap.
      - eexists. split.
        + subst h7. rewrite !list_lookup_insert_ne by lia.
          apply list_lookup_insert_eq. rewrite length_insert. lia.
        + rewrite dict_of_snoc. apply dict_holds_set.
          * exists (length h). split; [done|]. split; [lia|].
            apply Hnew7; [lia|]. by rewrite map_map.
          * by eapply dict_holds_heap.
      - subst h7. rewrite !length_insert. lia. }
    exists h'. split; [done|].
    by rewrite <- (assoc_L (++)) in Hinv'.
Qed.

(** ** The whole call *)

Lemma loop_inv_init (h : heap) :
  loop_inv h ((((h ++ [PyList []]) ++ [PyList []]) ++ [PyDict []]) ++ [PyDict []]) [].
Proof.
  split.
  - intros l Hl. by rewrite !lookup_app_l by (rewrite ?length_app; cbn; lia).
  - rewrite !lookup_app_l by (rewrite ?length_app; cbn; lia).
    by apply list_lookup_middle.
  - rewrite !lookup_app_l by (rewrite ?length_app; cbn; lia).
    apply list_lookup_middle. rewrite length_app. cbn. lia.
  - exists []. split; [|constructor].
    rewrite lookup_app_l by (rewrite ?length_app; cbn; lia).
    apply list_lookup_middle. rewrite !length_app. cbn. lia.
  - exists []. split; [|constructor].
    apply list_lookup_middle. rewrite !length_app. cbn. lia.
  - rewrite !length_app. cbn. lia.
Qed.

(** On an argument that wraps a pulse map whose series fit the counter, the
    call returns references to four objects allocated right above the old
    heap, and the final heap satisfies the loop's invariant for the whole
    map. *)
Lemma restructure_pulsemap_run (h : heap) (l : loc) (m : I3RecoPulseSeriesMap) :
  h !! l = Some (PyPulseMap m) →
  sizes_fit_int m →
  ∃ h', restructure_pulsemap (PyRef l) h =
          (Ok (PyRef (length h), PyRef (length h + 1),
               PyRef (length h + 2), PyRef (length h + 3)), h') ∧
        loop_inv h h' m.
Proof.
  intros Hl Hfit. unfold restructure_pulsemap.
  rewrite (bind_ok _ _ _ _ _ (extract_pulse_map_run _ _ _ Hl)).
  do 4 (erewrite bind_ok; [|reflexivity]).
  rewrite !length_app. cbn [length].
  replace (length h + 1 + 1) with (length h + 2) by lia.
  replace (length h + 2 + 1) with (length h + 3) by lia.
  destruct (map_loop_run h m Hfit [] _ (loop_inv_init h)) as (h' & Hrun & Hinv).
  exists h'. split; [|done].
  by rewrite (bind_ok _ _ _ _ _ Hrun).
Qed.

Lemma loop_inv_reads (h0 h : heap) (m : I3RecoPulseSeriesMap) :
  loop_inv h0 h m →
  read_list h (PyRef (length h0)) = Some (flat GetCharge m) ∧
  read_list h (PyRef (length h0 + 1)) = Some (flat GetTime m) ∧
  read_dict h (PyRef (length h0 + 2)) = Some (dict_of GetTime m) ∧
  read_dict h (PyRef (length h0 + 3)) = Some (dict_of GetCharge m).
Proof.
  intros [_ Hc Ht (dti & Hdt & Hdti) (dci & Hdc & Hdci) _].
  repeat split.
  - unfold read_list. rewrite Hc. apply mapM_as_float.
  - unfold read_list. rewrite Ht. apply mapM_as_float.
  - by eapply dict_holds_read.
  - by eapply dict_holds_read.
Qed.

Lemma loop_inv_read (h0 h : heap) (m : I3RecoPulseSeriesMap) :
  loop_inv h0 h m →
  read_bundle h (PyRef (length h0), PyRef (length h0 + 1),
                 PyRef (length h0 + 2), PyRef (length h0 + 3)) = Some (bundle_of m).
Proof.
  intros (Hc & Ht & Hdt & Hdc)%loop_inv_reads.
  unfold read_bundle. by rewrite Hc, Ht, Hdt, Hdc.
Qed.

(** The call returns, and what it returns is [bundle_of]. *)
Lemma restructure_pulsemap_returns (h : heap) (l : loc) (m : I3RecoPulseSeriesMap) :
  h !! l = Some (PyPulseMap m) →
  sizes_fit_int m →
  returns h (PyRef l) (bundle_of m).
Proof.
  intros Hl Hfit.
  destruct (restructure_pulsemap_run h l m Hl Hfit) as (h' & Hrun & Hinv).
  eexists _, h'. split; [exact Hrun|]. by eapply loop_inv_read.
Qed.

Lemma returns_functional (h : heap) (obj : PyVal) (b b' : OutputBundle) :
  returns h obj b → returns h obj b' → b = b'.
Proof.
  intros (out & h1 & Hrun & Hb) (out' & h1' & Hrun' & Hb'). congruence.
Qed.

(** ** Dictionaries over distinct keys *)

Lemma dict_set_fresh {V : Type} (k : OMKey) (v : V) (d : list (OMKey * V)) :
  k ∉ dict_keys d → dict_set k v d = d ++ [(k, v)].
Proof.
  induction d as [|[k' v'] d IH]; cbn; [done|].
  rewrite not_elem_of_cons. intros [Hne Hnotin].
  destruct (decide (k' = k)); [congruence|]. by rewrite IH.
Qed.

Lemma dict_keys_per_key (f : I3RecoPulse → float) (m : I3RecoPulseSeriesMap) :
  dict_keys (per_key f m) = dict_keys m.
Proof. unfold dict_keys, per_key. rewrite map_map. by apply map_ext. Qed.

(** Over distinct keys every assignment adds a key: the dictionary is the
    map's entries, one for one and in order. *)
Lemma dict_of_NoDup (f : I3RecoPulse → float) (m : I3RecoPulseSeriesMap) :
  NoDup (dict_keys m) → dict_of f m = per_key f m.
Proof.
  induction m as [|e m IH] using rev_ind; [done|].
  unfold dict_keys. rewrite map_app, NoDup_app. intros (Hm & Hfresh & _).
  rewrite dict_of_snoc, (IH Hm), dict_set_fresh.
  - unfold per_key. by rewrite map_app.
  - rewrite dict_keys_per_key. intros Hin. apply (Hfresh _ Hin). cbn. left.
Qed.

Lemma dict_get_per_key (f : I3RecoPulse → float) (m : I3RecoPulseSeriesMap)
    (k : OMKey) (pulses : I3RecoPulseSeries) :
  NoDup (dict_keys m) →
  (k, pulses) ∈ m →
  dict_get k (per_key f m) = Some (map f pulses).
Proof.
  induction m as [|[k' ps'] m IH]; cbn.
  - intros _ Hin. by apply elem_of_nil in Hin.
  - rewrite NoDup_cons, elem_of_cons. intros [Hnotin Hm] [Heq|Hin].
    + simplify_eq. by rewrite decide_True.
    + rewrite decide_False; [by apply IH|].
      intros ->. apply Hnotin. apply list_elem_of_fmap. by exists (k, pulses).
Qed.

Lemma concat_per_key (f : I3RecoPulse → float) (m : I3RecoPulseSeriesMap) :
  NoDup (dict_keys m) →
  @concat float <$> mapM (λ k, dict_get k (per_key f m)) (dict_keys m) = Some (flat f m).
Proof.
  intros Hm.
  assert (Hall : mapM (λ k, dict_get k (per_key f m)) (dict_keys m)
                 = Some (map (λ kv, map f kv.2) m)).
  { apply mapM_Some. unfold dict_keys. apply Forall2_fmap, Forall_Forall2_diag.
    apply Forall_forall. intros [k ps] Hin. by apply dict_get_per_key. }
  by rewrite Hall.
Qed.

Lemma length_flat (f : I3RecoPulse → float) (m : I3RecoPulseSeriesMap) :
  length (flat f m) = sum_list (map (λ kv, length kv.2) (per_key f m)).
Proof.
  unfold flat, per_key. induction m as [|[k ps] m IH]; [done|].
  cbn. by rewrite length_app, length_map, IH.
Qed.

Lemma length_flat_fields (m : I3RecoPulseSeriesMap) :
  length (flat GetCharge m) = length (flat GetTime m).
Proof.
  unfold flat. induction m as [|[k ps] m IH]; [done|].
  cbn. by rewrite !length_app, !length_map, IH.
Qed.

(** ** The call writes above the old heap only *)

Lemma keeps_ret {A : Type} (n : nat) (a : A) : keeps n (ret a).
Proof. by intros h Hn. Qed.

Lemma keeps_raise {A : Type} (n : nat) (e : exn) : keeps n (raise (A:=A) e).
Proof. by intros h Hn. Qed.

Lemma keeps_bind {A B : Type} (n : nat) (c : M A) (k : A → M B) :
  keeps n c → (∀ a, keeps n (k a)) → keeps n (bind c k).
Proof.
  intros Hc Hk h Hn. destruct (Hc h Hn) as [Htake Hlen]. unfold bind.
  destruct (c h) as [[a| |] h1]; cbn in *; [|done..].
  destruct (Hk a h1) as [Htake' Hlen']; [lia|].
  split; [congruence|lia].
Qed.

Lemma keeps_new {B : Type} (n : nat) (o : PyObj) (k : loc → M B) :
  (∀ a, n ≤ a → keeps n (k a)) → keeps n (bind (new_object o) k).
Proof.
  intros Hk h Hn. unfold bind, new_object.
  destruct (Hk (length h) Hn (h ++ [o])) as [Htake Hlen].
  { rewrite length_app. lia. }
  rewrite length_app in Hlen. rewrite take_app_le in Htake by done.
  split; [done|lia].
Qed.

Lemma keeps_list_append (n : nat) (l : loc) (v : PyVal) :
  n ≤ l → keeps n (list_append l v).
Proof.
  intros Hl h Hn. unfold list_append.
  destruct (h !! l) as [[]|]; cbn; try done.
  by rewrite take_insert_ge, length_insert.
Qed.

Lemma keeps_list_extend (n : nat) (l src : loc) :
  n ≤ l → keeps n (list_extend l src).
Proof.
  intros Hl h Hn. unfold list_extend.
  destruct (h !! l) as [[]|]; cbn; try done.
  destruct (h !! src) as [[]|]; cbn; try done.
  by rewrite take_insert_ge, length_insert.
Qed.

Lemma keeps_dict_setitem (n : nat) (d : loc) (k : OMKey) (v : PyVal) :
  n ≤ d → keeps n (dict_setitem d k v).
Proof.
  intros Hd h Hn. unfold dict_setitem.
  destruct (h !! d) as [[]|]; cbn; try done.
  by rewrite take_insert_ge, length_insert.
Qed.

Lemma keeps_vector_at (n : nat) (v : I3RecoPulseSeries) (i : Z) :
  keeps n (vector_at v i).
Proof.
  unfold vector_at. destruct (v !! Z.to_nat i); [apply keeps_ret|apply keeps_raise].
Qed.

Lemma keeps_extract_pulse_map (n : nat) (obj : PyVal) :
  keeps n (extract_pulse_map obj).
Proof.
  intros h Hn. unfold extract_pulse_map.
  destruct obj as [| | |l]; try done. by destruct (h !! l) as [[]|].
Qed.

Lemma keeps_pulse_loop (n fuel : nat) (pulses : I3RecoPulseSeries) (i : Z)
    (dc dt : loc) :
  n ≤ dc → n ≤ dt → keeps n (pulse_loop fuel pulses i dc dt).
Proof.
  intros Hdc Hdt. revert i. induction fuel as [|fuel IH]; intros i; cbn [pulse_loop].
  - by intros h Hn.
  - destruct (size_t_of_int i <? Z.of_nat (length pulses))%Z; [|apply keeps_ret].
    apply keeps_bind; [apply keeps_vector_at|]. intros p.
    apply keeps_bind; [by apply keeps_list_append|]. intros _.
    apply keeps_bind; [apply keeps_vector_at|]. intros q.
    apply keeps_bind; [by apply keeps_list_append|]. intros _.
    apply IH.
Qed.

Lemma keeps_map_loop (n : nat) (entries : I3RecoPulseSeriesMap) (c t dt dc : loc) :
  n ≤ c → n ≤ t → n ≤ dt → n ≤ dc → keeps n (map_loop entries c t dt dc).
Proof.
  intros Hc Ht Hdt Hdc. induction entries as [|[k pulses] entries IH]; cbn [map_loop].
  - apply keeps_ret.
  - apply keeps_new. intros dom_charges Hdom_charges.
    apply keeps_new. intros dom_times Hdom_times.
    apply keeps_bind; [by apply keeps_pulse_loop|]. intros _.
    apply keeps_bind; [by apply keeps_dict_setitem|]. intros _.
    apply keeps_bind; [by apply keeps_dict_setitem|]. intros _.
    apply keeps_bind; [by apply keeps_list_extend|]. intros _.
    apply keeps_bind; [by apply keeps_list_extend|]. intros _.
    apply IH.
Qed.

Lemma keeps_restructure_pulsemap (n : nat) (obj : PyVal) :
  keeps n (restructure_pulsemap obj).
Proof.
  unfold restructure_pulsemap.
  apply keeps_bind; [apply keeps_extract_pulse_map|]. intros m.
  apply keeps_new. intros charges Hc.
  apply keeps_new. intros times Ht.
  apply keeps_new. intros dom_times_dict Hdt.
  apply keeps_new. intros dom_charges_dict Hdc.
  apply keeps_bind; [by apply keeps_map_loop|]. intros _.
  apply keeps_ret.
Qed.

(** Whatever the loops do, a tuple that is returned holds references to the
    four objects allocated first. *)
Lemma restructure_pulsemap_out (h h' : heap) (obj : PyVal) (out : PyTuple4) :
  restructure_pulsemap obj h = (Ok out, h') →
  out = (PyRef (length h), PyRef (length h + 1),
         PyRef (length h + 2), PyRef (length h + 3)) ∧
  length h + 4 ≤ length h'.
Proof.
  unfold restructure_pulsemap, bind.
  destruct (extract_pulse_map obj h) as [[m| |] h1] eqn:Hext; [|done..].
  assert (h1 = h) as ->.
  { unfold extract_pulse_map in Hext. destruct obj as [| | |l]; try done.
    destruct (h !! l) as [[]|]; by simplify_eq. }
  cbn [new_object]. rewrite !length_app. cbn [length].
  pose proof (keeps_map_loop 0 m (length h) (length h + 1) (length h + 1 + 1)
                (length h + 1 + 1 + 1)
                ltac:(lia) ltac:(lia) ltac:(lia) ltac:(lia)
                ((((h ++ [PyList []]) ++ [PyList []]) ++ [PyDict []]) ++ [PyDict []])
                ltac:(lia)) as [_ Hlen].
  rewrite !length_app in Hlen. cbn [length] in Hlen.
  destruct (map_loop m _ _ _ _ _) as [[[]| |] h2]; cbn in *; [|done..].
  unfold ret. intros [= <- <-]. split; [|lia].
  replace (length h + 1 + 1 + 1) with (length h + 3) by lia.
  by replace (length h + 1 + 1) with (length h + 2) by lia.
Qed.

(** ** Valid pulse maps *)

(** For a valid map the call returns the flat fields and, key by key, the
    fields of each series. *)
Lemma valid_returns (h : heap) (l : loc) (m : I3RecoPulseSeriesMap) :
  h !! l = Some (PyPulseMap m) →
  valid_pulse_map m →
  returns h (PyRef l)
    {| FlatCharges := flat GetCharge m; FlatTimes := flat GetTime m;
       PerKeyTimes := per_key GetTime m; PerKeyCharges := per_key GetCharge m |}.
Proof.
  intros Hl [Hnodup Hfit].
  rewrite <- !(dict_of_NoDup _ _ Hnodup).
  by apply restructure_pulsemap_returns.
Qed.

Lemma one_pulse_map_valid (A : OMKey) : valid_pulse_map (one_pulse_map A).
Proof.
  split.
  - apply NoDup_singleton.
  - repeat constructor; cbn; unfold INT_MAX; lia.
Qed.

Lemma two_key_map_valid (A B : OMKey) : A ≠ B → valid_pulse_map (two_key_map A B).
Proof.
  intros Hne. split.
  - cbn. apply NoDup_cons. split; [|apply NoDup_singleton].
    by intros ->%list_elem_of_singleton.
  - repeat constructor; cbn; unfold INT_MAX; lia.
Qed.

Lemma empty_series_map_valid (A : OMKey) : valid_pulse_map (empty_series_map A).
Proof.
  split.
  - apply NoDup_singleton.
  - repeat constructor; cbn; unfold INT_MAX; lia.
Qed.

(** C1: for a valid pulse map, the per-key charge lists taken in the
    iteration order of the map's keys and concatenated are exactly the flat
    charge list, and the same holds for the times. *)
Theorem flat_is_concat_of_per_key (h : heap) (l : loc) (m : I3RecoPulseSeriesMap) :
  h !! l = Some (PyPulseMap m) →
  valid_pulse_map m →
  ∃ b, returns h (PyRef l) b ∧
    @concat float <$> mapM (λ k, dict_get k (PerKeyCharges b)) (dict_keys m)
      = Some (FlatCharges b) ∧
    @concat float <$> mapM (λ k, dict_get k (PerKeyTimes b)) (dict_keys m)
      = Some (FlatTimes b).
Proof.
  intros Hl Hvalid. eexists. split; [by apply valid_returns|].
  destruct Hvalid as [Hnodup _]. cbn [PerKeyCharges PerKeyTimes FlatCharges FlatTimes].
  split; by apply concat_per_key.
Qed.

(** C2: for a valid pulse map, the flat charges and the flat times have the
    same length, which is the sum of the lengths of the per-key charge
    lists. *)
Theorem flat_lengths (h : heap) (l : loc) (m : I3RecoPulseSeriesMap) :
  h !! l = Some (PyPulseMap m) →
  valid_pulse_map m →
  ∃ b, returns h (PyRef l) b ∧
    length (FlatCharges b) = length (FlatTimes b) ∧
    length (FlatCharges b) = sum_list (map (λ kv, length kv.2) (PerKeyCharges b)).
Proof.
  intros Hl Hvalid. eexists. split; [by apply valid_returns|].
  cbn [PerKeyCharges FlatCharges FlatTimes].
  split; [apply length_flat_fields|apply length_flat].
Qed.

(** C3: the tuple is (flat charges, flat times, per-key times, per-key
    charges); keys and pulses come out in the order the map stores them,
    nothing is sorted.  For {A: [(1.5, 10.0)]} the result is
    ([1.5], [10.0], {A: [10.0]}, {A: [1.5]}); for
    {A: [(2.0, 20.0), (3.0, 30.0)], B: [(4.0, 40.0)]} the flat charges are
    [2.0, 3.0, 4.0] and the flat times [20.0, 30.0, 40.0]. *)
Theorem restructure_pulsemap_order (h : heap) (l : loc) (m : I3RecoPulseSeriesMap) :
  h !! l = Some (PyPulseMap m) →
  valid_pulse_map m →
  ∃ c t dt dc h',
    restructure_pulsemap (PyRef l) h = (Ok (c, t, dt, dc), h') ∧
    read_list h' c = Some (flat GetCharge m) ∧
    read_list h' t = Some (flat GetTime m) ∧
    read_dict h' dt = Some (per_key GetTime m) ∧
    read_dict h' dc = Some (per_key GetCharge m) ∧
    (∀ A, m = one_pulse_map A →
       read_list h' c = Some [1.5%float] ∧
       read_list h' t = Some [10%float] ∧
       read_dict h' dt = Some [(A, [10%float])] ∧
       read_dict h' dc = Some [(A, [1.5%float])]) ∧
    (∀ A B, m = two_key_map A B →
       read_list h' c = Some [2%float; 3%float; 4%float] ∧
       read_list h' t = Some [20%float; 30%float; 40%float] ∧
       read_dict h' dt = Some [(A, [20%float; 30%float]); (B, [40%float])] ∧
       read_dict h' dc = Some [(A, [2%float; 3%float]); (B, [4%float])]).
Proof.
  intros Hl [Hnodup Hfit].
  destruct (restructure_pulsemap_run h l m Hl Hfit) as (h' & Hrun & Hinv).
  apply loop_inv_reads in Hinv as (Hc & Ht & Hdt & Hdc).
  rewrite (dict_of_NoDup _ _ Hnodup) in Hdt.
  rewrite (dict_of_NoDup _ _ Hnodup) in Hdc.
  eexists _, _, _, _, h'. split; [exact Hrun|].
  do 4 (split; [done|]).
  split.
  - intros A ->. by rewrite Hc, Ht, Hdt, Hdc.
  - intros A B ->. by rewrite Hc, Ht, Hdt, Hdc.
Qed.

(** C4: for every key of a valid pulse map, the per-key charges and the
    per-key times have the same length, and at every index they hold the
    charge and the time of the pulse at that index of the key's series. *)
Theorem per_key_pulse_for_pulse (h : heap) (l : loc) (m : I3RecoPulseSeriesMap) :
  h !! l = Some (PyPulseMap m) →
  valid_pulse_map m →
  ∃ b, returns h (PyRef l) b ∧
    ∀ k pulses, (k, pulses) ∈ m →
      ∃ cs ts,
        dict_get k (PerKeyCharges b) = Some cs ∧
        dict_get k (PerKeyTimes b) = Some ts ∧
        length cs = length ts ∧
        ∀ i : nat, cs !! i = GetCharge <$> pulses !! i ∧
                   ts !! i = GetTime <$> pulses !! i.
Proof.
  intros Hl Hvalid. eexists. split; [by apply valid_returns|].
  destruct Hvalid as [Hnodup _]. cbn [PerKeyCharges PerKeyTimes].
  intros k pulses Hin.
  exists (map GetCharge pulses), (map GetTime pulses).
  split; [by apply dict_get_per_key|].
  split; [by apply dict_get_per_key|].
  split; [by rewrite !length_map|].
  intros i. split; apply (list_lookup_fmap _ pulses i).
Qed.

(** C5: on the empty pulse map the call returns two empty lists and two
    empty dicts, four new objects. *)
Theorem empty_map_gives_empty_outputs (h : heap) (l : loc) :
  h !! l = Some (PyPulseMap []) →
  restructure_pulsemap (PyRef l) h =
    (Ok (PyRef (length h), PyRef (length h + 1),
         PyRef (length h + 2), PyRef (length h + 3)),
     h ++ [PyList []; PyList []; PyDict []; PyDict []]) ∧
  returns h (PyRef l)
    {| FlatCharges := []; FlatTimes := []; PerKeyTimes := []; PerKeyCharges := [] |}.
Proof.
  intros Hl. split.
  - unfold restructure_pulsemap.
    rewrite (bind_ok _ _ _ _ _ (extract_pulse_map_run _ _ _ Hl)).
    do 4 (erewrite bind_ok; [|reflexivity]).
    cbn [map_loop]. erewrite bind_ok; [|reflexivity].
    unfold ret. rewrite !length_app. cbn [length].
    rewrite <- !(assoc_L (++)). cbn [app].
    replace (length h + 1 + 1 + 1) with (length h + 3) by lia.
    by replace (length h + 1 + 1) with (length h + 2) by lia.
  - apply (valid_returns h l [] Hl). split; constructor.
Qed.

(** C6: a key of a valid pulse map whose series is empty is a key of both
    dicts, with an empty list, and the flat lists are those of the map
    without that entry; {A: []} gives ([], [], {A: []}, {A: []}). *)
Theorem empty_series_key (h : heap) (l : loc) (m1 m2 : I3RecoPulseSeriesMap)
    (k : OMKey) :
  h !! l = Some (PyPulseMap (m1 ++ (k, []) :: m2)) →
  valid_pulse_map (m1 ++ (k, []) :: m2) →
  ∃ b, returns h (PyRef l) b ∧
    dict_get k (PerKeyTimes b) = Some [] ∧
    dict_get k (PerKeyCharges b) = Some [] ∧
    FlatCharges b = flat GetCharge (m1 ++ m2) ∧
    FlatTimes b = flat GetTime (m1 ++ m2) ∧
    (m1 = [] → m2 = [] →
     b = {| FlatCharges := []; FlatTimes := [];
            PerKeyTimes := [(k, [])]; PerKeyCharges := [(k, [])] |}).
Proof.
  intros Hl Hvalid. eexists. split; [by apply valid_returns|].
  destruct Hvalid as [Hnodup _]. cbn [PerKeyCharges PerKeyTimes FlatCharges FlatTimes].
  assert (Hin : (k, []) ∈ m1 ++ (k, []) :: m2).
  { apply elem_of_app. right. left. }
  split; [by apply (dict_get_per_key GetTime _ k [])|].
  split; [by apply (dict_get_per_key GetCharge _ k [])|].
  unfold flat. rewrite !map_app, !concat_app. cbn.
  do 2 (split; [done|]).
  by intros -> ->.
Qed.

(** ** Failures *)

Lemma fieldless_is_not_pulse_map (h : heap) (obj : PyVal) :
  has_fieldless_element h obj = true → is_pulse_map h obj = false.
Proof.
  unfold has_fieldless_element, is_pulse_map.
  destruct obj as [| | |l]; try done. by destruct (h !! l) as [[]|].
Qed.

Lemma restructure_pulsemap_type_error (h : heap) (obj : PyVal) :
  is_pulse_map h obj = false →
  restructure_pulsemap obj h = (Raise TypeError, h).
Proof.
  intros Hno. unfold restructure_pulsemap.
  by rewrite (bind_raise _ _ _ _ _ (extract_pulse_map_fail _ _ Hno)).
Qed.

Lemma is_pulse_map_true (h : heap) (obj : PyVal) :
  is_pulse_map h obj = true → ∃ l m, obj = PyRef l ∧ h !! l = Some (PyPulseMap m).
Proof.
  unfold is_pulse_map. destruct obj as [| | |l]; try done.
  destruct (h !! l) as [[| | |m]|] eqn:Hl; try done. intros _. by exists l, m.
Qed.

(** C7, as the code has it: an argument with an element that lacks a charge
    or a time is not a wrapped pulse map, and the call fails with
    [TypeError]; so does every other argument that is not a wrapped pulse
    map; on a wrapped pulse map whose series fit the loop counter the call
    succeeds; and no failure is anything but [TypeError], so none is a
    missing-field error. *)
Theorem type_error_is_the_only_failure (h : heap) (obj : PyVal) :
  (∀ l m, obj = PyRef l → h !! l = Some (PyPulseMap m) → sizes_fit_int m) →
  (has_fieldless_element h obj = true →
     restructure_pulsemap obj h = (Raise TypeError, h)) ∧
  (is_pulse_map h obj = false →
     restructure_pulsemap obj h = (Raise TypeError, h)) ∧
  (is_pulse_map h obj = true →
     ∃ out h', restructure_pulsemap obj h = (Ok out, h')) ∧
  (∀ e, (restructure_pulsemap obj h).1 = Raise e → e = TypeError).
Proof.
  intros Hfit.
  assert (Hok : is_pulse_map h obj = true →
                ∃ out h', restructure_pulsemap obj h = (Ok out, h')).
  { intros (l & m & -> & Hl)%is_pulse_map_true.
    destruct (restructure_pulsemap_run h l m Hl (Hfit l m eq_refl Hl)) as (h' & Hrun & _).
    by eexists _, h'. }
  split; [|split; [|split]].
  - intros Hno%fieldless_is_not_pulse_map. by apply restructure_pulsemap_type_error.
  - apply restructure_pulsemap_type_error.
  - exact Hok.
  - intros e. destruct (is_pulse_map h obj) eqn:Hmap.
    + destruct (Hok eq_refl) as (out & h' & ->). by cbn.
    + rewrite (restructure_pulsemap_type_error _ _ Hmap). cbn. by intros [= <-].
Qed.

(** C8: an argument that does not wrap a pulse map ends the call at the
    extraction with [TypeError]: the heap is as it was, no object has been
    allocated, and nothing is returned. *)
Theorem non_map_argument_type_error (h : heap) (obj : PyVal) :
  is_pulse_map h obj = false →
  restructure_pulsemap obj h = (Raise TypeError, h) ∧
  ∀ b, ¬ returns h obj b.
Proof.
  intros Hno. pose proof (restructure_pulsemap_type_error _ _ Hno) as Hrun.
  split; [done|]. intros b (out & h' & Hok & _). congruence.
Qed.

(** C9: whatever the argument and however the call ends, every object that
    was on the heap before the call, the input map among them, is the same
    after it; a returned tuple refers to four distinct objects that the call
    allocated above the old heap. *)
Theorem input_not_mutated (h : heap) (obj : PyVal) :
  take (length h) (restructure_pulsemap obj h).2 = h ∧
  match (restructure_pulsemap obj h).1 with
  | Ok out =>
      out = (PyRef (length h), PyRef (length h + 1),
             PyRef (length h + 2), PyRef (length h + 3)) ∧
      length h + 4 ≤ length (restructure_pulsemap obj h).2
  | _ => True
  end.
Proof.
  split.
  - destruct (keeps_restructure_pulsemap (length h) obj h) as [Htake _]; [done|].
    by rewrite Htake, firstn_all.
  - destruct (restructure_pulsemap obj h) as [[out| |] h'] eqn:Hrun; [|done..].
    by apply (restructure_pulsemap_out h h' obj out).
Qed.

(** C10: for a valid pulse map, the keys of the per-key times, the keys of
    the per-key charges and the keys of the input map are the same, each
    key once, in the iteration order of the input map. *)
Theorem output_keys (h : heap) (l : loc) (m : I3RecoPulseSeriesMap) :
  h !! l = Some (PyPulseMap m) →
  valid_pulse_map m →
  ∃ b, returns h (PyRef l) b ∧
    dict_keys (PerKeyTimes b) = dict_keys m ∧
    dict_keys (PerKeyCharges b) = dict_keys m ∧
    NoDup (dict_keys (PerKeyTimes b)) ∧
    NoDup (dict_keys (PerKeyCharges b)).
Proof.
  intros Hl Hvalid. eexists. split; [by apply valid_returns|].
  destruct Hvalid as [Hnodup _]. cbn [PerKeyCharges PerKeyTimes].
  by rewrite !dict_keys_per_key.
Qed.

(** ** The heap after the call, object by object *)

Lemma fresh_lists_eq (h : heap) (a b x y : PyObj) :
  <[S (length h) := b]> (<[length h := a]> ((h ++ [x]) ++ [y])) = h ++ [a; b].
Proof.
  rewrite <- (assoc_L (++)). cbn [app].
  replace (length h) with (length h + 0) at 2 by lia.
  rewrite insert_app_r. cbn.
  replace (S (length h)) with (length h + 1) by lia.
  by rewrite insert_app_r.
Qed.

Lemma insert_at_length (h1 h2 : heap) (x y : PyObj) :
  <[length h1 := x]> (h1 ++ y :: h2) = h1 ++ x :: h2.
Proof.
  pose proof (insert_app_r h1 (y :: h2) 0 x) as Hins.
  by rewrite Nat.add_0_r in Hins.
Qed.

Lemma lookup_frame_tail (h0 rest : heap) (a b c d : PyObj) (i : nat) :
  (h0 ++ a :: b :: c :: d :: rest) !! (length h0 + 4 + i) = rest !! i.
Proof.
  rewrite lookup_app_r by lia.
  by replace (length h0 + 4 + i - length h0) with (S (S (S (S i)))) by lia.
Qed.

Lemma length_round_cells (m : I3RecoPulseSeriesMap) :
  length (concat (map round_cells m)) = 2 * length m.
Proof. induction m as [|kv m IH]; cbn; lia. Qed.

(** The outer loop, run on a heap whose four output objects sit right
    above [h0]: the flat lists grow by the fields of the entries, the dicts
    take one assignment per entry, and two list objects per entry are
    added at the end. *)
Lemma map_loop_layout (entries : I3RecoPulseSeriesMap) :
  sizes_fit_int entries →
  ∀ (h0 : heap) (cs ts : list PyVal) (dt dc : list (OMKey * PyVal)) (tail : heap),
    map_loop entries (length h0) (length h0 + 1) (length h0 + 2) (length h0 + 3)
      (h0 ++ [PyList cs; PyList ts; PyDict dt; PyDict dc] ++ tail) =
    (Ok (),
     h0 ++ [PyList (cs ++ map PyFloat (flat GetCharge entries));
            PyList (ts ++ map PyFloat (flat GetTime entries));
            PyDict (dict_refs 1 (length h0 + 4 + length tail) entries dt);
            PyDict (dict_refs 0 (length h0 + 4 + length tail) entries dc)]
        ++ tail ++ concat (map round_cells entries)).
Proof.
  intros Hfit.
  induction Hfit as [|[k pulses] entries Hp Hfit IH]; intros h0 cs ts dt dc tail.
  - cbn. by rewrite !(right_id_L [] (++)).
  - cbn [map_loop fst snd]. cbn [fst snd] in Hp.
    set (H := h0 ++ [PyList cs; PyList ts; PyDict dt; PyDict dc] ++ tail).
    assert (Hlen : length H = length h0 + 4 + length tail).
    { unfold H. rewrite !length_app. cbn. lia. }
    erewrite bind_ok; [|reflexivity].
    erewrite bind_ok; [|reflexivity].
    rewrite length_app. cbn [length]. rewrite Nat.add_1_r.
    erewrite bind_ok;
      [ | apply (pulse_loop_run _ _ Hp 0 _ (length H) (S (length H)) [] []);
          [ lia | apply lookup_fresh_0 | apply lookup_fresh_1 | lia | lia ] ].
    rewrite drop_0. cbn [app]. rewrite fresh_lists_eq, !Hlen.
    unfold H. clear H Hlen. rewrite <- !(assoc_L (++)). cbn [app].
    set (CS := PyList (map (λ p, PyFloat (GetCharge p)) pulses)).
    set (TS := PyList (map (λ p, PyFloat (GetTime p)) pulses)).
    erewrite bind_ok;
      [ | apply dict_setitem_run;
          rewrite lookup_app_r by lia;
          by replace (length h0 + 2 - length h0) with 2 by lia ].
    rewrite insert_app_r. cbn [insert list_insert].
    erewrite bind_ok;
      [ | apply dict_setitem_run;
          rewrite lookup_app_r by lia;
          by replace (length h0 + 3 - length h0) with 3 by lia ].
    rewrite insert_app_r. cbn [insert list_insert].
    erewrite bind_ok;
      [ | apply list_extend_run;
          [ rewrite lookup_app_r by lia;
            by replace (length h0 - length h0) with 0 by lia
          | rewrite lookup_frame_tail; by apply list_lookup_middle ] ].
    rewrite insert_at_length.
    erewrite bind_ok;
      [ | apply list_extend_run;
          [ rewrite lookup_app_r by lia;
            by replace (length h0 + 1 - length h0) with 1 by lia
          | replace (S (length h0 + 4 + length tail))
              with (length h0 + 4 + (length tail + 1)) by lia;
            rewrite lookup_frame_tail, lookup_app_r by lia;
            by replace (length tail + 1 - length tail) with 1 by lia ] ].
    rewrite insert_app_r. cbn [insert list_insert].
    specialize (IH h0 (cs ++ map (λ p, PyFloat (GetCharge p)) pulses)
                  (ts ++ map (λ p, PyFloat (GetTime p)) pulses)
                  (dict_set k (PyRef (S (length h0 + 4 + length tail))) dt)
                  (dict_set k (PyRef (length h0 + 4 + length tail)) dc)
                  (tail ++ [CS; TS])).
    cbn [app] in IH. rewrite IH. clear IH.
    rewrite length_app. cbn [length dict_refs fst snd]. subst CS TS.
    replace (length h0 + 4 + (length tail + 2)) with (length h0 + 4 + length tail + 2) by lia.
    replace (S (length h0 + 4 + length tail)) with (length h0 + 4 + length tail + 1) by lia.
    rewrite Nat.add_0_r.
    unfold flat. cbn [map concat round_cells fst snd].
    by rewrite !map_app, !map_map, <- !(assoc_L (++)).
Qed.

Lemma restructure_pulsemap_layout (h : heap) (l : loc) (m : I3RecoPulseSeriesMap) :
  h !! l = Some (PyPulseMap m) →
  sizes_fit_int m →
  restructure_pulsemap (PyRef l) h =
    (Ok (PyRef (length h), PyRef (length h + 1),
         PyRef (length h + 2), PyRef (length h + 3)),
     h ++ [PyList (map PyFloat (flat GetCharge m));
           PyList (map PyFloat (flat GetTime m));
           PyDict (dict_refs 1 (length h + 4) m []);
           PyDict (dict_refs 0 (length h + 4) m [])]
       ++ concat (map round_cells m)).
Proof.
  intros Hl Hfit. unfold restructure_pulsemap.
  rewrite (bind_ok _ _ _ _ _ (extract_pulse_map_run _ _ _ Hl)).
  do 4 (erewrite bind_ok; [|reflexivity]).
  rewrite !length_app. cbn [length].
  replace (length h + 1 + 1 + 1) with (length h + 3) by lia.
  replace (length h + 1 + 1) with (length h + 2) by lia.
  rewrite <- !(assoc_L (++)). cbn [app].
  pose proof (map_loop_layout m Hfit h [] [] [] [] []) as Hrun.
  cbn [app length] in Hrun. rewrite Nat.add_0_r in Hrun.
  by rewrite (bind_ok _ _ _ _ _ Hrun).
Qed.

(** Over distinct keys every assignment appends an item. *)
Lemma dict_refs_NoDup (off : nat) (entries : I3RecoPulseSeriesMap) :
  NoDup (dict_keys entries) →
  ∀ (next : loc) (d : list (OMKey * PyVal)),
    (∀ k, k ∈ dict_keys entries → k ∉ dict_keys d) →
    dict_refs off next entries d = d ++ refs_from off next entries.
Proof.
  induction entries as [|[k ps] entries IH]; intros Hnodup next d Hfresh; cbn.
  - by rewrite (right_id_L [] (++)).
  - cbn in Hnodup. apply NoDup_cons in Hnodup as [Hk Hnodup].
    rewrite dict_set_fresh by (apply Hfresh; cbn; left).
    rewrite (IH Hnodup), <- (assoc_L (++)); [done|].
    intros k' Hk'. unfold dict_keys. rewrite map_app. cbn.
    rewrite elem_of_app, list_elem_of_singleton. intros [Hin| ->].
    + apply (Hfresh k'); [cbn; by right|done].
    + done.
Qed.

Lemma refs_from_values (off : nat) (entries : I3RecoPulseSeriesMap) (next : loc)
    (v : PyVal) :
  v ∈ (refs_from off next entries).*2 →
  ∃ j, j < length entries ∧ v = PyRef (next + 2 * j + off).
Proof.
  revert next. induction entries as [|[k ps] entries IH]; intros next; cbn.
  - by intros ?%elem_of_nil.
  - rewrite elem_of_cons. intros [->|Hin].
    + exists 0. split; [lia|]. f_equal. lia.
    + destruct (IH _ Hin) as (j & Hj & ->).
      exists (S j). split; [lia|]. f_equal. lia.
Qed.

Lemma NoDup_refs_from (off : nat) (entries : I3RecoPulseSeriesMap) (next : loc) :
  NoDup (refs_from off next entries).*2.
Proof.
  revert next. induction entries as [|[k ps] entries IH]; intros next; cbn.
  - constructor.
  - apply NoDup_cons. split; [|apply IH].
    intros (j & _ & [= Heq])%refs_from_values. lia.
Qed.

(** ** Reading through a heap that has grown *)

Lemma read_list_grown (h h' : heap) (v : PyVal) (xs : list float) :
  (∀ l o, h !! l = Some o → h' !! l = Some o) →
  read_list h v = Some xs → read_list h' v = Some xs.
Proof.
  intros Hgrown. unfold read_list. destruct v as [| | |l]; try done.
  destruct (h !! l) as [o|] eqn:Hl; [|done].
  by rewrite (Hgrown _ _ Hl).
Qed.

Lemma read_dict_grown (h h' : heap) (v : PyVal) (d : list (OMKey * list float)) :
  (∀ l o, h !! l = Some o → h' !! l = Some o) →
  read_dict h v = Some d → read_dict h' v = Some d.
Proof.
  intros Hgrown. unfold read_dict. destruct v as [| | |l]; try done.
  destruct (h !! l) as [o|] eqn:Hl; [|done].
  rewrite (Hgrown _ _ Hl). destruct o as [|items| |]; try done.
  rewrite !mapM_Some. intros Hall. eapply Forall2_impl; [exact Hall|].
  intros kv kxs. cbn. destruct (read_list h kv.2) as [xs|] eqn:Hxs; [|done].
  by rewrite (read_list_grown _ _ _ _ Hgrown Hxs).
Qed.

Lemma read_bundle_grown (h h' : heap) (out : PyTuple4) (b : OutputBundle) :
  (∀ l o, h !! l = Some o → h' !! l = Some o) →
  read_bundle h out = Some b → read_bundle h' out = Some b.
Proof.
  intros Hgrown. destruct out as [[[c t] dt] dc]. unfold read_bundle.
  destruct (read_list h c) as [fc|] eqn:Hc; [|done].
  destruct (read_list h t) as [ft|] eqn:Ht; [|done].
  destruct (read_dict h dt) as [pt|] eqn:Hdt; [|done].
  destruct (read_dict h dc) as [pc|] eqn:Hdc; [|done].
  by rewrite (read_list_grown _ _ _ _ Hgrown Hc), (read_list_grown _ _ _ _ Hgrown Ht),
    (read_dict_grown _ _ _ _ Hgrown Hdt), (read_dict_grown _ _ _ _ Hgrown Hdc).
Qed.

Lemma prefix_lookup (h h' : heap) :
  take (length h) h' = h → ∀ l o, h !! l = Some o → h' !! l = Some o.
Proof.
  intros Htake l o Hl. pose proof (lookup_lt_Some _ _ _ Hl) as Hlt.
  rewrite <- Htake in Hl. by rewrite lookup_take_lt in Hl.
Qed.

Lemma flat_concat (f : I3RecoPulse → float) (m : I3RecoPulseSeriesMap) :
  flat f m = map f (concat (map snd m)).
Proof.
  unfold flat. induction m as [|[k ps] m IH]; [done|].
  cbn. by rewrite map_app, IH.
Qed.

Lemma sizes_fit_int_app (m1 m2 : I3RecoPulseSeriesMap) :
  sizes_fit_int (m1 ++ m2) ↔ sizes_fit_int m1 ∧ sizes_fit_int m2.
Proof. apply Forall_app. Qed.

Lemma valid_pulse_map_app (m1 m2 : I3RecoPulseSeriesMap) :
  valid_pulse_map (m1 ++ m2) → valid_pulse_map m1 ∧ valid_pulse_map m2.
Proof.
  unfold valid_pulse_map, dict_keys. rewrite map_app, NoDup_app, sizes_fit_int_app.
  intros [(H1 & _ & H2) [Hf1 Hf2]]. done.
Qed.

(** ** Further properties of the call *)


(** X2: the two flat lists are aligned: at every index the flat charges
    hold the charge and the flat times hold the time of one and the same
    pulse, the one at that index when all series are laid end to end in
    iteration order. *)
Theorem flat_lists_aligned (h : heap) (l : loc) (m : I3RecoPulseSeriesMap) :
  h !! l = Some (PyPulseMap m) →
  sizes_fit_int m →
  ∃ b, returns h (PyRef l) b ∧
    ∀ i : nat,
      FlatCharges b !! i = GetCharge <$> concat (map snd m) !! i ∧
      FlatTimes b !! i = GetTime <$> concat (map snd m) !! i.
Proof.
  intros Hl Hfit. exists (bundle_of m).
  split; [by apply restructure_pulsemap_returns|].
  intros i. cbn [bundle_of FlatCharges FlatTimes]. rewrite !flat_concat.
  split; apply (list_lookup_fmap _ (concat (map snd m)) i).
Qed.


(** X4: for a valid map, the values of the two returned dicts are
    references to pairwise different objects: no two keys share a list, and
    the time list and the charge list of a key are two objects.  Each is
    an object the call allocated, and none is a flat list or a dict of the
    returned tuple. *)
Theorem per_key_lists_not_shared (h : heap) (l : loc) (m : I3RecoPulseSeriesMap) :
  h !! l = Some (PyPulseMap m) →
  valid_pulse_map m →
  ∃ c t dt dc h' times_items charges_items,
    restructure_pulsemap (PyRef l) h = (Ok (PyRef c, PyRef t, PyRef dt, PyRef dc), h') ∧
    h' !! dt = Some (PyDict times_items) ∧
    h' !! dc = Some (PyDict charges_items) ∧
    NoDup (times_items.*2 ++ charges_items.*2) ∧
    ∀ v, v ∈ times_items.*2 ++ charges_items.*2 →
      ∃ r, v = PyRef r ∧ length h ≤ r < length h' ∧
           r ≠ c ∧ r ≠ t ∧ r ≠ dt ∧ r ≠ dc.
Proof.
  intros Hl [Hnodup Hfit].
  pose proof (restructure_pulsemap_layout h l m Hl Hfit) as Hrun.
  rewrite !(dict_refs_NoDup _ _ Hnodup) in Hrun by (intros k _ Hk; by apply elem_of_nil in Hk).
  cbn [app] in Hrun.
  eexists _, _, _, _, _, _, _. split; [exact Hrun|].
  split.
  { rewrite lookup_app_r by lia.
    by replace (length h + 2 - length h) with 2 by lia. }
  split.
  { rewrite lookup_app_r by lia.
    by replace (length h + 3 - length h) with 3 by lia. }
  split.
  - apply NoDup_app. split; [apply NoDup_refs_from|]. split; [|apply NoDup_refs_from].
    intros v (j & _ & ->)%refs_from_values (j' & _ & [= Heq])%refs_from_values. lia.
  - intros v Hv. rewrite length_app. cbn [length].
    rewrite length_round_cells.
    apply elem_of_app in Hv as [(j & Hj & ->)%refs_from_values|(j & Hj & ->)%refs_from_values];
      eexists; (split; [done|lia]).
Qed.

(** X5: calling again on the heap the first call left returns the same
    content in eight objects that are all different, and the objects of the
    first tuple still hold what they held. *)
Theorem second_call_same_content (h : heap) (l : loc) (m : I3RecoPulseSeriesMap) :
  h !! l = Some (PyPulseMap m) →
  sizes_fit_int m →
  ∃ c1 t1 dt1 dc1 h1 c2 t2 dt2 dc2 h2 b,
    restructure_pulsemap (PyRef l) h = (Ok (c1, t1, dt1, dc1), h1) ∧
    restructure_pulsemap (PyRef l) h1 = (Ok (c2, t2, dt2, dc2), h2) ∧
    read_bundle h1 (c1, t1, dt1, dc1) = Some b ∧
    read_bundle h2 (c1, t1, dt1, dc1) = Some b ∧
    read_bundle h2 (c2, t2, dt2, dc2) = Some b ∧
    NoDup [c1; t1; dt1; dc1; c2; t2; dt2; dc2].
Proof.
  intros Hl Hfit.
  destruct (restructure_pulsemap_run h l m Hl Hfit) as (h1 & Hrun1 & Hinv1).
  assert (Hl1 : h1 !! l = Some (PyPulseMap m)).
  { rewrite (inv_frame _ _ _ Hinv1); [done|]. by eapply lookup_lt_Some. }
  destruct (restructure_pulsemap_run h1 l m Hl1 Hfit) as (h2 & Hrun2 & Hinv2).
  pose proof (inv_length _ _ _ Hinv1) as Hlen1.
  eexists _, _, _, _, h1, _, _, _, _, h2, (bundle_of m).
  split; [exact Hrun1|]. split; [exact Hrun2|].
  split; [by eapply loop_inv_read|].
  split.
  { eapply read_bundle_grown; [|by eapply loop_inv_read].
    intros l' o Hl'. rewrite (inv_frame _ _ _ Hinv2); [done|].
    by eapply lookup_lt_Some. }
  split; [by eapply loop_inv_read|].
  repeat (apply NoDup_cons; split;
          [rewrite ?not_elem_of_cons; repeat split;
           first [apply not_elem_of_nil | intros [= Heq]; lia] |]).
  constructor.
Qed.

(** X6: the call on a valid map that is two maps one after the other
    returns, part by part, what the calls on the two maps return, one after
    the other. *)
Theorem flat_of_appended_maps (h : heap) (l1 l2 l : loc)
    (m1 m2 : I3RecoPulseSeriesMap) :
  h !! l1 = Some (PyPulseMap m1) →
  h !! l2 = Some (PyPulseMap m2) →
  h !! l = Some (PyPulseMap (m1 ++ m2)) →
  valid_pulse_map (m1 ++ m2) →
  ∃ b1 b2 b,
    returns h (PyRef l1) b1 ∧ returns h (PyRef l2) b2 ∧ returns h (PyRef l) b ∧
    FlatCharges b = FlatCharges b1 ++ FlatCharges b2 ∧
    FlatTimes b = FlatTimes b1 ++ FlatTimes b2 ∧
    PerKeyTimes b = PerKeyTimes b1 ++ PerKeyTimes b2 ∧
    PerKeyCharges b = PerKeyCharges b1 ++ PerKeyCharges b2.
Proof.
  intros Hl1 Hl2 Hl Hvalid.
  destruct (valid_pulse_map_app _ _ Hvalid) as [Hv1 Hv2].
  eexists _, _, _.
  split; [by apply (valid_returns h l1 m1)|].
  split; [by apply (valid_returns h l2 m2)|].
  split; [by apply (valid_returns h l (m1 ++ m2))|].
  cbn [FlatCharges FlatTimes PerKeyTimes PerKeyCharges].
  unfold flat, per_key. by rewrite !map_app, !concat_app.
Qed.

End Restructure.

(** ** The code on concrete inputs *)

(** The code run on the two-key map: the tuple and the whole heap. *)
Example restructure_two_key_map :
  restructure_pulsemap (PyRef 0) [PyPulseMap (two_key_map 1 2)] =
    (Ok (PyRef 1, PyRef 2, PyRef 3, PyRef 4),
     [PyPulseMap (two_key_map 1 2);
      PyList [PyFloat 2; PyFloat 3; PyFloat 4];
      PyList [PyFloat 20; PyFloat 30; PyFloat 40];
      PyDict [(1, PyRef 6); (2, PyRef 8)];
      PyDict [(1, PyRef 5); (2, PyRef 7)];
      PyList [PyFloat 2; PyFloat 3];
      PyList [PyFloat 20; PyFloat 30];
      PyList [PyFloat 4];
      PyList [PyFloat 40]]).
Proof. vm_compute. reflexivity. Qed.

Example restructure_one_pulse_map :
  returns [PyPulseMap (one_pulse_map 1)] (PyRef 0)
    {| FlatCharges := [1.5%float]; FlatTimes := [10%float];
       PerKeyTimes := [(1, [10%float])]; PerKeyCharges := [(1, [1.5%float])] |}.
Proof. eexists _, _. split; vm_compute; reflexivity. Qed.

Example restructure_empty_series_map :
  returns [PyPulseMap (empty_series_map 1)] (PyRef 0)
    {| FlatCharges := []; FlatTimes := [];
       PerKeyTimes := [(1, [])]; PerKeyCharges := [(1, [])] |}.
Proof. eexists _, _. split; vm_compute; reflexivity. Qed.

(** ** The theorems at concrete inputs *)

Lemma flat_is_concat_of_per_key_witness :
  [PyPulseMap (two_key_map 1 2)] !! 0 = Some (PyPulseMap (two_key_map 1 2)) ∧
  valid_pulse_map (two_key_map 1 2) ∧
  ∃ b, returns [PyPulseMap (two_key_map 1 2)] (PyRef 0) b ∧
    @concat float <$> mapM (λ k, dict_get k (PerKeyCharges b)) (dict_keys (two_key_map 1 2))
      = Some (FlatCharges b) ∧
    @concat float <$> mapM (λ k, dict_get k (PerKeyTimes b)) (dict_keys (two_key_map 1 2))
      = Some (FlatTimes b).
Proof.
  split; [reflexivity|]. split; [exact (two_key_map_valid 1 2 ltac:(lia))|].
  apply (flat_is_concat_of_per_key [PyPulseMap (two_key_map 1 2)] 0 (two_key_map 1 2));
    [reflexivity|exact (two_key_map_valid 1 2 ltac:(lia))].
Defined.

Lemma flat_lengths_witness :
  [PyPulseMap (two_key_map 1 2)] !! 0 = Some (PyPulseMap (two_key_map 1 2)) ∧
  valid_pulse_map (two_key_map 1 2) ∧
  ∃ b, returns [PyPulseMap (two_key_map 1 2)] (PyRef 0) b ∧
    length (FlatCharges b) = length (FlatTimes b) ∧
    length (FlatCharges b) = sum_list (map (λ kv, length kv.2) (PerKeyCharges b)).
Proof.
  split; [reflexivity|]. split; [exact (two_key_map_valid 1 2 ltac:(lia))|].
  apply (flat_lengths [PyPulseMap (two_key_map 1 2)] 0 (two_key_map 1 2));
    [reflexivity|exact (two_key_map_valid 1 2 ltac:(lia))].
Defined.

Lemma restructure_pulsemap_order_witness :
  [PyPulseMap (two_key_map 1 2)] !! 0 = Some (PyPulseMap (two_key_map 1 2)) ∧
  valid_pulse_map (two_key_map 1 2) ∧
  ∃ c t dt dc h',
    restructure_pulsemap (PyRef 0) [PyPulseMap (two_key_map 1 2)] = (Ok (c, t, dt, dc), h') ∧
    read_list h' c = Some [2%float; 3%float; 4%float] ∧
    read_list h' t = Some [20%float; 30%float; 40%float] ∧
    read_dict h' dt = Some [(1, [20%float; 30%float]); (2, [40%float])] ∧
    read_dict h' dc = Some [(1, [2%float; 3%float]); (2, [4%float])].
Proof.
  split; [reflexivity|]. split; [exact (two_key_map_valid 1 2 ltac:(lia))|].
  destruct (restructure_pulsemap_order [PyPulseMap (two_key_map 1 2)] 0 (two_key_map 1 2)
              eq_refl (two_key_map_valid 1 2 ltac:(lia)))
    as (c & t & dt & dc & h' & Hrun & _ & _ & _ & _ & _ & Htwo).
  exists c, t, dt, dc, h'. split; [exact Hrun|].
  exact (Htwo 1 2 eq_refl).
Defined.

Lemma per_key_pulse_for_pulse_witness :
  [PyPulseMap (two_key_map 1 2)] !! 0 = Some (PyPulseMap (two_key_map 1 2)) ∧
  valid_pulse_map (two_key_map 1 2) ∧
  ∃ b, returns [PyPulseMap (two_key_map 1 2)] (PyRef 0) b ∧
    ∀ k pulses, (k, pulses) ∈ two_key_map 1 2 →
      ∃ cs ts,
        dict_get k (PerKeyCharges b) = Some cs ∧
        dict_get k (PerKeyTimes b) = Some ts ∧
        length cs = length ts ∧
        ∀ i : nat, cs !! i = GetCharge <$> pulses !! i ∧
                   ts !! i = GetTime <$> pulses !! i.
Proof.
  split; [reflexivity|]. split; [exact (two_key_map_valid 1 2 ltac:(lia))|].
  apply (per_key_pulse_for_pulse [PyPulseMap (two_key_map 1 2)] 0 (two_key_map 1 2));
    [reflexivity|exact (two_key_map_valid 1 2 ltac:(lia))].
Defined.

Lemma empty_map_gives_empty_outputs_witness :
  [@PyPulseMap nat []] !! 0 = Some (PyPulseMap []) ∧
  restructure_pulsemap (PyRef 0) [@PyPulseMap nat []] =
    (Ok (PyRef 1, PyRef 2, PyRef 3, PyRef 4),
     [PyPulseMap []; PyList []; PyList []; PyDict []; PyDict []]) ∧
  returns [@PyPulseMap nat []] (PyRef 0)
    {| FlatCharges := []; FlatTimes := []; PerKeyTimes := []; PerKeyCharges := [] |}.
Proof.
  split; [reflexivity|].
  apply (empty_map_gives_empty_outputs [@PyPulseMap nat []] 0). reflexivity.
Defined.

Lemma empty_series_key_witness :
  [PyPulseMap (empty_series_map 1)] !! 0 = Some (PyPulseMap ([] ++ (1, []) :: [])) ∧
  valid_pulse_map (empty_series_map 1) ∧
  returns [PyPulseMap (empty_series_map 1)] (PyRef 0)
    {| FlatCharges := []; FlatTimes := [];
       PerKeyTimes := [(1, [])]; PerKeyCharges := [(1, [])] |}.
Proof.
  split; [reflexivity|]. split; [exact (empty_series_map_valid 1)|].
  destruct (empty_series_key [PyPulseMap (empty_series_map 1)] 0 [] [] 1
              eq_refl (empty_series_map_valid 1))
    as (b & Hreturns & _ & _ & _ & _ & Hb).
  rewrite <- (Hb eq_refl eq_refl). exact Hreturns.
Defined.

(** C7, as the spec states it, fails: on the dict {1: [None]}, whose
    element has no charge and no time, the call raises [TypeError] at the
    extraction and not a missing-field error. *)
Lemma missing_field_is_type_error :
  has_fieldless_element (fieldless_heap 1) (PyRef 1) = true ∧
  restructure_pulsemap (PyRef 1) (fieldless_heap 1) = (Raise TypeError, fieldless_heap 1) ∧
  (restructure_pulsemap (PyRef 1) (fieldless_heap 1)).1 ≠ Raise AttributeError.
Proof. split; [reflexivity|]. split; [reflexivity|]. cbn. discriminate. Qed.

Lemma type_error_is_the_only_failure_witness :
  (∀ l m, PyRef 1 = PyRef l → fieldless_heap 1 !! l = Some (PyPulseMap m) →
          sizes_fit_int m) ∧
  (has_fieldless_element (fieldless_heap 1) (PyRef 1) = true →
     restructure_pulsemap (PyRef 1) (fieldless_heap 1) = (Raise TypeError, fieldless_heap 1)) ∧
  (is_pulse_map (fieldless_heap 1) (PyRef 1) = false →
     restructure_pulsemap (PyRef 1) (fieldless_heap 1) = (Raise TypeError, fieldless_heap 1)) ∧
  (is_pulse_map (fieldless_heap 1) (PyRef 1) = true →
     ∃ out h', restructure_pulsemap (PyRef 1) (fieldless_heap 1) = (Ok out, h')) ∧
  (∀ e, (restructure_pulsemap (PyRef 1) (fieldless_heap 1)).1 = Raise e → e = TypeError).
Proof.
  assert (Hfit : ∀ l m, PyRef 1 = PyRef l →
                   fieldless_heap 1 !! l = Some (PyPulseMap m) → sizes_fit_int m).
  { intros l m [= <-] Hl. discriminate Hl. }
  split; [exact Hfit|].
  exact (type_error_is_the_only_failure (fieldless_heap 1) (PyRef 1) Hfit).
Defined.

Lemma non_map_argument_type_error_witness :
  is_pulse_map [PyPulseMap (two_key_map 1 2)] (PyInt 3) = false ∧
  restructure_pulsemap (PyInt 3) [PyPulseMap (two_key_map 1 2)]
    = (Raise TypeError, [PyPulseMap (two_key_map 1 2)]) ∧
  ∀ b, ¬ returns [PyPulseMap (two_key_map 1 2)] (PyInt 3) b.
Proof.
  split; [reflexivity|].
  apply (non_map_argument_type_error [PyPulseMap (two_key_map 1 2)] (PyInt 3)). reflexivity.
Defined.

Lemma output_keys_witness :
  [PyPulseMap (two_key_map 1 2)] !! 0 = Some (PyPulseMap (two_key_map 1 2)) ∧
  valid_pulse_map (two_key_map 1 2) ∧
  ∃ b, returns [PyPulseMap (two_key_map 1 2)] (PyRef 0) b ∧
    dict_keys (PerKeyTimes b) = dict_keys (two_key_map 1 2) ∧
    dict_keys (PerKeyCharges b) = dict_keys (two_key_map 1 2) ∧
    NoDup (dict_keys (PerKeyTimes b)) ∧
    NoDup (dict_keys (PerKeyCharges b)).
Proof.
  split; [reflexivity|]. split; [exact (two_key_map_valid 1 2 ltac:(lia))|].
  apply (output_keys [PyPulseMap (two_key_map 1 2)] 0 (two_key_map 1 2));
    [reflexivity|exact (two_key_map_valid 1 2 ltac:(lia))].
Defined.

(** ** The further properties at concrete inputs *)


Lemma flat_lists_aligned_witness :
  [PyPulseMap (two_key_map 1 2)] !! 0 = Some (PyPulseMap (two_key_map 1 2)) ∧
  sizes_fit_int (two_key_map 1 2) ∧
  ∃ b, returns [PyPulseMap (two_key_map 1 2)] (PyRef 0) b ∧
    ∀ i : nat,
      FlatCharges b !! i = GetCharge <$> concat (map snd (two_key_map 1 2)) !! i ∧
      FlatTimes b !! i = GetTime <$> concat (map snd (two_key_map 1 2)) !! i.
Proof.
  split; [reflexivity|].
  split; [exact (proj2 (two_key_map_valid 1 2 ltac:(lia)))|].
  apply (flat_lists_aligned [PyPulseMap (two_key_map 1 2)] 0 (two_key_map 1 2));
    [reflexivity|exact (proj2 (two_key_map_valid 1 2 ltac:(lia)))].
Defined.


Lemma per_key_lists_not_shared_witness :
  [PyPulseMap (two_key_map 1 2)] !! 0 = Some (PyPulseMap (two_key_map 1 2)) ∧
  valid_pulse_map (two_key_map 1 2) ∧
  ∃ c t dt dc h' times_items charges_items,
    restructure_pulsemap (PyRef 0) [PyPulseMap (two_key_map 1 2)]
      = (Ok (PyRef c, PyRef t, PyRef dt, PyRef dc), h') ∧
    h' !! dt = Some (PyDict times_items) ∧
    h' !! dc = Some (PyDict charges_items) ∧
    NoDup (times_items.*2 ++ charges_items.*2) ∧
    ∀ v, v ∈ times_items.*2 ++ charges_items.*2 →
      ∃ r, v = PyRef r ∧ 1 ≤ r < length h' ∧
           r ≠ c ∧ r ≠ t ∧ r ≠ dt ∧ r ≠ dc.
Proof.
  split; [reflexivity|].
  split; [exact (two_key_map_valid 1 2 ltac:(lia))|].
  apply (per_key_lists_not_shared [PyPulseMap (two_key_map 1 2)] 0 (two_key_map 1 2));
    [reflexivity|exact (two_key_map_valid 1 2 ltac:(lia))].
Defined.

Lemma second_call_same_content_witness :
  [PyPulseMap (two_key_map 1 2)] !! 0 = Some (PyPulseMap (two_key_map 1 2)) ∧
  sizes_fit_int (two_key_map 1 2) ∧
  ∃ c1 t1 dt1 dc1 h1 c2 t2 dt2 dc2 h2 b,
    restructure_pulsemap (PyRef 0) [PyPulseMap (two_key_map 1 2)]
      = (Ok (c1, t1, dt1, dc1), h1) ∧
    restructure_pulsemap (PyRef 0) h1 = (Ok (c2, t2, dt2, dc2), h2) ∧
    read_bundle h1 (c1, t1, dt1, dc1) = Some b ∧
    read_bundle h2 (c1, t1, dt1, dc1) = Some b ∧
    read_bundle h2 (c2, t2, dt2, dc2) = Some b ∧
    NoDup [c1; t1; dt1; dc1; c2; t2; dt2; dc2].
Proof.
  split; [reflexivity|].
  split; [exact (proj2 (two_key_map_valid 1 2 ltac:(lia)))|].
  apply (second_call_same_content [PyPulseMap (two_key_map 1 2)] 0 (two_key_map 1 2));
    [reflexivity|exact (proj2 (two_key_map_valid 1 2 ltac:(lia)))].
Defined.

Lemma flat_of_appended_maps_witness :
  [PyPulseMap [(1, [pulse 2 20; pulse 3 30])]; PyPulseMap [(2, [pulse 4 40])];
   PyPulseMap (two_key_map 1 2)] !! 0 = Some (PyPulseMap [(1, [pulse 2 20; pulse 3 30])]) ∧
  [PyPulseMap [(1, [pulse 2 20; pulse 3 30])]; PyPulseMap [(2, [pulse 4 40])];
   PyPulseMap (two_key_map 1 2)] !! 1 = Some (PyPulseMap [(2, [pulse 4 40])]) ∧
  [PyPulseMap [(1, [pulse 2 20; pulse 3 30])]; PyPulseMap [(2, [pulse 4 40])];
   PyPulseMap (two_key_map 1 2)] !! 2
    = Some (PyPulseMap ([(1, [pulse 2 20; pulse 3 30])] ++ [(2, [pulse 4 40])])) ∧
  valid_pulse_map ([(1, [pulse 2 20; pulse 3 30])] ++ [(2, [pulse 4 40])]) ∧
  ∃ b1 b2 b,
    returns [PyPulseMap [(1, [pulse 2 20; pulse 3 30])]; PyPulseMap [(2, [pulse 4 40])];
             PyPulseMap (two_key_map 1 2)] (PyRef 0) b1 ∧
    returns [PyPulseMap [(1, [pulse 2 20; pulse 3 30])]; PyPulseMap [(2, [pulse 4 40])];
             PyPulseMap (two_key_map 1 2)] (PyRef 1) b2 ∧
    returns [PyPulseMap [(1, [pulse 2 20; pulse 3 30])]; PyPulseMap [(2, [pulse 4 40])];
             PyPulseMap (two_key_map 1 2)] (PyRef 2) b ∧
    FlatCharges b = FlatCharges b1 ++ FlatCharges b2 ∧
    FlatTimes b = FlatTimes b1 ++ FlatTimes b2 ∧
    PerKeyTimes b = PerKeyTimes b1 ++ PerKeyTimes b2 ∧
    PerKeyCharges b = PerKeyCharges b1 ++ PerKeyCharges b2.
Proof.
  split; [reflexivity|]. split; [reflexivity|]. split; [reflexivity|].
  split; [exact (two_key_map_valid 1 2 ltac:(lia))|].
  apply (flat_of_appended_maps
           [PyPulseMap [(1, [pulse 2 20; pulse 3 30])]; PyPulseMap [(2, [pulse 4 40])];
            PyPulseMap (two_key_map 1 2)] 0 1 2
           [(1, [pulse 2 20; pulse 3 30])] [(2, [pulse 4 40])]);
    [reflexivity|reflexivity|reflexivity|exact (two_key_map_valid 1 2 ltac:(lia))].
Defined.
